(** * the-secret-source: the artist selection of [HomePage]

    A shallow embedding of [src/components/home-page.tsx]: the
    [fetchArtist] callback with its try / catch / finally, the effect that
    reacts to the filter props, the space-bar hotkey and the part of the
    render function that chooses what is shown.  The flow
    [getRandomArtist] of [@/ai/flows/artist-randomizer] and the type
    [Artist] of [@/lib/types] are imported by the component but are not
    part of the sources at hand; they are modelled from the specification
    and marked as such. *)

From Stdlib Require Import String List Bool Arith Znat Lia QArith.
Import ListNotations.
Open Scope string_scope.
Open Scope nat_scope.

(** ** Data model *)

(** Modelled from the spec: the declaration of [Artist] in [@/lib/types] is
    missing.  An artist record has a name (the component reads
    [artist.artistName]), the identifier of its dataset and an ordered
    sequence of [(linkType, url)] pairs. *)
Record Link := { linkType : string; url : string }.

Record Artist := {
  artistName : string;
  datasetId : string;
  links : list Link
}.

(** [HomePageProps], lines 15-18. *)
Record HomePageProps := {
  selectedDatasets : list string;
  selectedLinkTypes : list string
}.

(** The argument object of [getRandomArtist], built at line 34. *)
Record FilterRequest := {
  datasets : list string;
  linkTypes : list string
}.

Definition requestOf (props : HomePageProps) : FilterRequest :=
  {| datasets := selectedDatasets props; linkTypes := selectedLinkTypes props |}.

(** ** The selection flow *)

Definition member (x : string) (xs : list string) : bool :=
  existsb (String.eqb x) xs.

(** Modelled from the spec: a record is eligible iff its [datasetId] is a
    member of [datasets] and at least one of its links has a [linkType]
    that is a member of [linkTypes]. *)
Definition eligible (request : FilterRequest) (record : Artist) : bool :=
  member (datasetId record) (datasets request)
  && existsb (fun l => member (linkType l) (linkTypes request)) (links record).

Definition eligibleSubset (allArtists : list Artist) (request : FilterRequest)
  : list Artist :=
  filter (eligible request) allArtists.

(** Modelled from the spec: [getRandomArtist] of
    [@/ai/flows/artist-randomizer] is missing.  It computes the eligible
    subset and, when that is not empty, returns the entry at a position
    chosen by the random source; otherwise it returns no record ([null]).
    The random source is injected as a natural number [draw], reduced
    modulo the size of the subset. *)
Definition getRandomArtist (draw : nat) (allArtists : list Artist)
    (request : FilterRequest) : option Artist :=
  let pool := eligibleSubset allArtists request in
  match pool with
  | [] => None
  | _ :: _ => nth_error pool (draw mod length pool)
  end.

(** ** JavaScript values the component handles *)

(** A thrown [Error] object; only its [message] is read.  A missing
    message behaves as the empty one. *)
Record JsError := { message : string }.

(** What a [catch (e: any)] can receive: [null] or [undefined], or an
    object. *)
Inductive JsValue :=
| JsNullish
| JsObject (e : JsError).

Coercion JsObject : JsError >-> JsValue.

(** The [TypeError] of reading a property of [null] or [undefined]; its
    text is the engine's. *)
Definition typeError : JsError :=
  {| message := "Cannot read properties of null (reading 'message')" |}.

(** The settlement of the promise awaited at line 34. *)
Inductive Awaited :=
| Resolved (artistData : option Artist)
| Rejected (e : JsValue).

(** [a || b] on strings: the empty string is falsy. *)
Definition orElse (a b : string) : string :=
  if (a =? "")%string then b else a.

(** [String.prototype.includes]. *)
Fixpoint includes (s needle : string) : bool :=
  if String.prefix needle s then true
  else match s with
       | EmptyString => false
       | String _ rest => includes rest needle
       end.

(** The messages of the errors thrown at lines 38, 41, 44 and 46, and the
    fallback of line 51. *)
Definition msgNoMatchForFilters : string :=
  "No artists found for the selected filters. Try adjusting your filters.".
Definition msgNoDatasetSelected : string :=
  "Please select at least one dataset to discover artists.".
Definition msgNoLinkTypeSelected : string :=
  "Please select at least one link type to discover artists.".
Definition msgNoDataAvailable : string :=
  "No artist data could be loaded. The dataset might be empty or invalid.".
Definition msgGeneric : string :=
  "Failed to fetch artist. Please try again.".

(** The taxonomy of the specification, and the message that carries each
    variant in the component. *)
Inductive SelectionError :=
| NoDatasetSelected
| NoLinkTypeSelected
| NoMatchForFilters
| NoDataAvailable.

Definition errorMessage (e : SelectionError) : string :=
  match e with
  | NoDatasetSelected => msgNoDatasetSelected
  | NoLinkTypeSelected => msgNoLinkTypeSelected
  | NoMatchForFilters => msgNoMatchForFilters
  | NoDataAvailable => msgNoDataAvailable
  end.

(** ** Component state *)

Record Toast := { variant : string; title : string; description : string }.

(** The [useState] cells [artist], [isLoading] and [error] (lines 21-23),
    together with what the component has sent to [toast] and to
    [console.error]. *)
Record State := {
  artist : option Artist;
  isLoading : bool;
  error : option string;
  toasts : list Toast;
  console : list JsValue
}.

Definition initialState : State :=
  {| artist := None; isLoading := true; error := None;
     toasts := []; console := [] |}.

(** ** A state monad with exceptions *)

Inductive Completion (A : Type) :=
| Normal (a : A)
| Throw (e : JsValue).
Arguments Normal {A} a.
Arguments Throw {A} e.

Definition M (A : Type) : Type := State -> Completion A * State.

Definition ret {A} (a : A) : M A := fun s => (Normal a, s).

Definition bind {A B} (m : M A) (k : A -> M B) : M B :=
  fun s =>
    match m s with
    | (Normal a, s') => k a s'
    | (Throw e, s') => (Throw e, s')
    end.

Definition throw {A} (e : JsValue) : M A := fun s => (Throw e, s).

Notation "x <- m ;; k" := (bind m (fun x => k))
  (at level 61, m at next level, right associativity).
Notation "m ;; k" := (bind m (fun _ => k))
  (at level 61, right associativity).

(** [try { body } catch (e) { handler } finally { finalizer }]. *)
Definition tryCatchFinally (body : M unit) (handler : JsValue -> M unit)
    (finalizer : M unit) : M unit :=
  fun s =>
    let '(c, s1) :=
      match body s with
      | (Normal u, s') => (Normal u, s')
      | (Throw e, s') => handler e s'
      end in
    match finalizer s1 with
    | (Normal _, s2) => (c, s2)
    | (Throw e, s2) => (Throw e, s2)
    end.

Definition when (c : bool) (m : M unit) : M unit :=
  if c then m else ret tt.

Definition exec {A} (m : M A) (s : State) : State := snd (m s).

Definition setArtist (v : option Artist) : M unit :=
  fun s => (Normal tt,
            {| artist := v; isLoading := isLoading s; error := error s;
               toasts := toasts s; console := console s |}).

Definition setIsLoading (v : bool) : M unit :=
  fun s => (Normal tt,
            {| artist := artist s; isLoading := v; error := error s;
               toasts := toasts s; console := console s |}).

Definition setError (v : option string) : M unit :=
  fun s => (Normal tt,
            {| artist := artist s; isLoading := isLoading s; error := v;
               toasts := toasts s; console := console s |}).

Definition toast (t : Toast) : M unit :=
  fun s => (Normal tt,
            {| artist := artist s; isLoading := isLoading s; error := error s;
               toasts := (toasts s ++ [t])%list; console := console s |}).

Definition consoleError (e : JsValue) : M unit :=
  fun s => (Normal tt,
            {| artist := artist s; isLoading := isLoading s; error := error s;
               toasts := toasts s; console := (console s ++ [e])%list |}).

Definition await (r : Awaited) : M (option Artist) :=
  match r with
  | Resolved artistData => ret artistData
  | Rejected e => throw e
  end.

(** ** [fetchArtist], lines 28-64 *)

(** Lines 29-31: what runs before the [await]. *)
Definition fetchArtist_start : M unit :=
  setIsLoading true ;;
  setError None ;;
  setArtist None.

(** Lines 34-49: the body of the [try], resumed with the settlement of
    the awaited promise. *)
Definition fetchArtist_try (props : HomePageProps) (r : Awaited) : M unit :=
  artistData <- await r ;;
  match artistData with
  | None =>
      when ((0 <? length (selectedDatasets props))
            && (0 <? length (selectedLinkTypes props)))
           (throw {| message := msgNoMatchForFilters |}) ;;
      when (length (selectedDatasets props) =? 0)
           (throw {| message := msgNoDatasetSelected |}) ;;
      when (length (selectedLinkTypes props) =? 0)
           (throw {| message := msgNoLinkTypeSelected |}) ;;
      throw {| message := msgNoDataAvailable |}
  | Some _ => ret tt
  end ;;
  setArtist artistData.

(** [e.message], line 51: reading a property of [null] or [undefined]
    throws. *)
Definition readMessage (e : JsValue) : M string :=
  match e with
  | JsNullish => throw typeError
  | JsObject o => ret (message o)
  end.

(** Lines 50-60: the [catch] block. *)
Definition fetchArtist_catch (e : JsValue) : M unit :=
  m <- readMessage e ;;
  let errorMessage := orElse m msgGeneric in
  setError (Some errorMessage) ;;
  when (negb (includes errorMessage "filters")
        && negb (includes errorMessage "dataset")
        && negb (includes errorMessage "link type"))
       (toast {| variant := "destructive"; title := "Error";
                 description :=
                   "Could not fetch a new artist. Please try again later." |}) ;;
  consoleError e.

(** Lines 32-63: everything after the [await] has settled. *)
Definition fetchArtist_resume (props : HomePageProps) (r : Awaited) : M unit :=
  tryCatchFinally (fetchArtist_try props r) fetchArtist_catch
                  (setIsLoading false).

(** One call of [fetchArtist] that runs from its start to its end with
    nothing else in between. *)
Definition fetchArtist (props : HomePageProps) (r : Awaited) : M unit :=
  fetchArtist_start ;;
  fetchArtist_resume props r.

(** ** The effect on the filter props, lines 66-78 *)

Definition canDiscover (props : HomePageProps) : bool :=
  (0 <? length (selectedDatasets props))
  && (0 <? length (selectedLinkTypes props)).

(** The effect either calls [fetchArtist] (which then runs up to its
    [await]) or sets the state itself; the result tells which. *)
Definition filterEffect (props : HomePageProps) : M bool :=
  if (0 <? length (selectedDatasets props))
     && (0 <? length (selectedLinkTypes props))
  then
    fetchArtist_start ;;
    ret true
  else
    setArtist None ;;
    (if length (selectedDatasets props) =? 0
     then setError (Some msgNoDatasetSelected)
     else if length (selectedLinkTypes props) =? 0
          then setError (Some msgNoLinkTypeSelected)
          else ret tt) ;;
    setIsLoading false ;;
    ret false.

(** ** What is rendered, lines 90 and 144-153 *)

Definition isDiscovering (isPending : bool) (s : State) : bool :=
  isPending || isLoading s.

Inductive Phase :=
| Idle
| Loading
| Success (a : Artist)
| Error (reason : string).

Definition phase (isPending : bool) (s : State) : Phase :=
  if isDiscovering isPending s then Loading
  else match artist s with
       | Some a => Success a
       | None =>
           match error s with
           | Some reason => if (reason =? "")%string then Idle else Error reason
           | None => Idle
           end
       end.

(** ** The hotkey, lines 94-109 *)

Record HTMLElement := { tagName : string; isContentEditable : bool }.

Record KeyboardEvent := { target : option HTMLElement; code : string }.

(** What one run of [handleKeyDown] did. *)
Record KeyOutcome := {
  defaultPrevented : bool;
  newArtistRequested : bool
}.

Definition isTextInput (el : HTMLElement) : bool :=
  (tagName el =? "INPUT")%string
  || (tagName el =? "TEXTAREA")%string
  || isContentEditable el.

Definition handleKeyDown (canDiscover isDiscovering : bool)
    (activeElement : option HTMLElement) (event : KeyboardEvent) : KeyOutcome :=
  if match target event with
     | Some el => isTextInput el
     | None => false
     end
  then {| defaultPrevented := false; newArtistRequested := false |}
  else if (code event =? "Space")%string
          && negb match activeElement with
                  | Some el => (tagName el =? "BUTTON")%string
                  | None => false
                  end
       then {| defaultPrevented := true;
               newArtistRequested := canDiscover && negb isDiscovering |}
       else {| defaultPrevented := false; newArtistRequested := false |}.

(** ** The component as a transition system *)

(** The props of the latest render, the state cells, and the calls of
    [fetchArtist] that are suspended at their [await], each with the props
    its closure captured. *)
Record Machine := {
  props : HomePageProps;
  cells : State;
  inflight : list HomePageProps
}.

Inductive Event :=
| FiltersChanged (p : HomePageProps)
    (* the effect of lines 66-78 runs: after the mount and after each
       render with new filter props *)
| Click (isPending : bool)
    (* the button of line 130 *)
| KeyDown (isPending : bool) (activeElement : option HTMLElement)
          (event : KeyboardEvent)
| Settle (i : nat) (r : Awaited).
    (* the promise awaited by the i-th suspended call settles *)

(** [handleNewArtist], lines 84-88: [fetchArtist] runs up to its [await]. *)
Definition handleNewArtist (m : Machine) : Machine :=
  {| props := props m;
     cells := exec fetchArtist_start (cells m);
     inflight := (inflight m ++ [props m])%list |}.

Definition step (m : Machine) (ev : Event) : Machine :=
  match ev with
  | FiltersChanged p =>
      match filterEffect p (cells m) with
      | (Normal true, s) =>
          {| props := p; cells := s; inflight := (inflight m ++ [p])%list |}
      | (_, s) =>
          {| props := p; cells := s; inflight := inflight m |}
      end
  | Click isPending =>
      if isDiscovering isPending (cells m) || negb (canDiscover (props m))
      then m
      else handleNewArtist m
  | KeyDown isPending activeElement event =>
      if newArtistRequested
           (handleKeyDown (canDiscover (props m))
                          (isDiscovering isPending (cells m))
                          activeElement event)
      then handleNewArtist m
      else m
  | Settle i r =>
      match nth_error (inflight m) i with
      | Some p =>
          {| props := props m;
             cells := exec (fetchArtist_resume p r) (cells m);
             inflight := (firstn i (inflight m) ++ skipn (S i) (inflight m))%list |}
      | None => m
      end
  end.

Definition run (m : Machine) (trace : list Event) : Machine :=
  fold_left step trace m.

(** The component before its first effect has run. *)
Definition initialMachine (p : HomePageProps) : Machine :=
  {| props := p; cells := initialState; inflight := [] |}.

(** A trace in which no call of [fetchArtist] is in flight when anything
    other than its own settlement happens. *)
Fixpoint overlapFree (m : Machine) (trace : list Event) : bool :=
  match trace with
  | [] => true
  | ev :: rest =>
      match ev with
      | Settle _ _ => true
      | _ => match inflight m with [] => true | _ :: _ => false end
      end && overlapFree (step m ev) rest
  end.

(** The two cells are not both set. *)
Definition exclusive (s : State) : Prop :=
  artist s = None \/ error s = None.

(** A call of [fetchArtist] is in flight for ["d1"] and ["store"] when the
    user clears the datasets; the call then settles with the record the
    flow found for the old filters. *)
Definition staleTrace : list Event :=
  [ FiltersChanged {| selectedDatasets := ["d1"]; selectedLinkTypes := ["store"] |};
    FiltersChanged {| selectedDatasets := []; selectedLinkTypes := ["store"] |};
    Settle 0 (Resolved (Some {| artistName := "X"; datasetId := "d1";
                                links := [ {| linkType := "store"; url := "u" |} ] |})) ].

(** What holds between transitions when calls do not overlap: either no
    call is in flight and the cells are exclusive, or one call is in
    flight and it has cleared both cells. *)
Definition quiescent (m : Machine) : Prop :=
  match inflight m with
  | [] => exclusive (cells m)
  | [_] => artist (cells m) = None /\ error (cells m) = None
  | _ :: _ :: _ => False
  end.

(** ** The selection as one operation *)

(** The operation the specification calls [selectRandomArtist]: the flow
    is asked for a record and [fetchArtist] turns its answer into the
    [artist] or the [error] of the component. *)
Definition selectRandomArtist (draw : nat) (allArtists : list Artist)
    (props : HomePageProps) : Completion unit * State :=
  fetchArtist props
    (Resolved (getRandomArtist draw allArtists (requestOf props)))
    initialState.

(** The precedence rule as the specification words it: datasets empty,
    else link types empty, else both non-empty, else the catch-all. *)
Definition classifyBySpec (request : FilterRequest) : SelectionError :=
  if length (datasets request) =? 0 then NoDatasetSelected
  else if length (linkTypes request) =? 0 then NoLinkTypeSelected
  else if (0 <? length (datasets request)) && (0 <? length (linkTypes request))
       then NoMatchForFilters
       else NoDataAvailable.

(** What the cells hold once the awaited promise has settled. *)
Definition settled (p : HomePageProps) (r : Awaited) (s s' : State) : Prop :=
  isLoading s' = false
  /\ match r with
     | Resolved (Some a) => artist s' = Some a /\ error s' = error s
     | Resolved None =>
         artist s' = artist s
         /\ error s' = Some (errorMessage (classifyBySpec (requestOf p)))
     | Rejected (JsObject e) =>
         artist s' = artist s
         /\ error s' = Some (orElse (message e) msgGeneric)
     | Rejected JsNullish => artist s' = artist s /\ error s' = error s
     end.

(** ** Counting draws *)

(** Among the equally likely draws [0 .. n-1], the number of those for
    which [event] holds, and their share. *)
Definition favourable (n : nat) (event : nat -> bool) : nat :=
  length (filter event (seq 0 n)).

Definition probability (n : nat) (event : nat -> bool) : Q :=
  (Z.of_nat (favourable n event) # Pos.of_nat n)%Q.

Definition Link_eq_dec (x y : Link) : {x = y} + {x <> y}.
Proof. decide equality; apply string_dec. Defined.

Definition Artist_eq_dec (x y : Artist) : {x = y} + {x <> y}.
Proof.
  decide equality;
    [ apply (list_eq_dec Link_eq_dec) | apply string_dec | apply string_dec ].
Defined.

(** The entry at position [i] of [pool] is the record [a]. *)
Definition holds (pool : list Artist) (a : Artist) (i : nat) : bool :=
  match nth_error pool i with
  | Some b => if Artist_eq_dec a b then true else false
  | None => false
  end.

(** The draw makes the flow return the record [a]. *)
Definition returns (allArtists : list Artist) (request : FilterRequest)
    (a : Artist) (draw : nat) : bool :=
  match getRandomArtist draw allArtists request with
  | Some b => if Artist_eq_dec a b then true else false
  | None => false
  end.

(** ** Further notions read off the component *)

(** The toast of lines 54-58. *)
Definition errorToast : Toast :=
  {| variant := "destructive"; title := "Error";
     description := "Could not fetch a new artist. Please try again later." |}.

(** The test of line 53 on the message that was stored. *)
Definition toastWanted (errorMessage : string) : bool :=
  negb (includes errorMessage "filters")
  && negb (includes errorMessage "dataset")
  && negb (includes errorMessage "link type").

(** The two tests of [handleKeyDown], lines 98 and 103. *)
Definition targetIsText (event : KeyboardEvent) : bool :=
  match target event with
  | Some el => isTextInput el
  | None => false
  end.

Definition buttonHasFocus (activeElement : option HTMLElement) : bool :=
  match activeElement with
  | Some el => (tagName el =? "BUTTON")%string
  | None => false
  end.

(** The [disabled] attribute of the button, line 130. *)
Definition buttonDisabled (isPending : bool) (m : Machine) : bool :=
  isDiscovering isPending (cells m) || negb (canDiscover (props m)).

(** The component once the effect of lines 66-78 has run after the
    mount. *)
Definition mounted (p : HomePageProps) : Machine :=
  step (initialMachine p) (FiltersChanged p).

(** A trace in which the filter props change only while no call of
    [fetchArtist] is in flight; clicks and key presses may come at any
    time. *)
Fixpoint filtersChangeAtRest (m : Machine) (trace : list Event) : bool :=
  match trace with
  | [] => true
  | ev :: rest =>
      match ev with
      | FiltersChanged _ =>
          match inflight m with [] => true | _ :: _ => false end
      | _ => true
      end && filtersChangeAtRest (step m ev) rest
  end.

(** No awaited promise of the trace is rejected. *)
Definition noRejection (trace : list Event) : bool :=
  forallb (fun ev => match ev with
                     | Settle _ (Rejected _) => false
                     | _ => true
                     end) trace.

(** Exactly one call is in flight and it has cleared the cells, or none
    is and the spinner is off. *)
Definition settledOrLoading (m : Machine) : Prop :=
  match inflight m with
  | [] => isLoading (cells m) = false /\ exclusive (cells m)
  | [_] => isLoading (cells m) = true
           /\ artist (cells m) = None /\ error (cells m) = None
  | _ :: _ :: _ => False
  end.

(** Something is there to be shown once the spinner is off. *)
Definition somethingToShow (s : State) : Prop :=
  isLoading s = false ->
  artist s <> None
  \/ exists reason, error s = Some reason /\ reason <> "".

(** No awaited promise of the trace is rejected with [null] or
    [undefined]. *)
Definition noNullishRejection (trace : list Event) : bool :=
  forallb (fun ev => match ev with
                     | Settle _ (Rejected JsNullish) => false
                     | _ => true
                     end) trace.


(** ** The scenarios of the specification *)

Definition artistX : Artist :=
  {| artistName := "X"; datasetId := "d1";
     links := [ {| linkType := "store"; url := "u" |} ] |}.

Definition artistY : Artist :=
  {| artistName := "Y"; datasetId := "d1";
     links := [ {| linkType := "video"; url := "v" |};
                {| linkType := "store"; url := "w" |} ] |}.

Definition propsD1Store : HomePageProps :=
  {| selectedDatasets := ["d1"]; selectedLinkTypes := ["store"] |}.

Definition propsNoneStore : HomePageProps :=
  {| selectedDatasets := []; selectedLinkTypes := ["store"] |}.

Definition propsD1Video : HomePageProps :=
  {| selectedDatasets := ["d1"]; selectedLinkTypes := ["video"] |}.

Definition propsNone : HomePageProps :=
  {| selectedDatasets := []; selectedLinkTypes := [] |}.

Example scenario_A :
  artist (snd (selectRandomArtist 0 [artistX] propsD1Store)) = Some artistX.
Proof. reflexivity. Qed.

Example scenario_B :
  error (snd (selectRandomArtist 0 [artistX] propsNoneStore))
  = Some (errorMessage NoDatasetSelected).
Proof. reflexivity. Qed.

Example scenario_C :
  error (snd (selectRandomArtist 0 [artistX] propsD1Video))
  = Some (errorMessage NoMatchForFilters).
Proof. reflexivity. Qed.

(** A rejection without a message is reported with the fallback of line
    51, and only then is a toast shown. *)
Example rejection_without_message :
  let s := exec (fetchArtist propsD1Store (Rejected {| message := "" |}))
                initialState in
  error s = Some msgGeneric /\ length (toasts s) = 1 /\ isLoading s = false.
Proof. repeat split. Qed.

Example no_match_shows_no_toast :
  let s := snd (selectRandomArtist 0 [artistX] propsD1Video) in
  toasts s = []
  /\ console s = [ JsObject {| message := msgNoMatchForFilters |} ].
Proof. split; reflexivity. Qed.

(** ** Facts about the messages *)

Lemma errorMessage_injective (e1 e2 : SelectionError) :
  errorMessage e1 = errorMessage e2 -> e1 = e2.
Proof. destruct e1, e2; simpl; intros H; try reflexivity; discriminate H. Qed.

Lemma errorMessage_not_generic (e : SelectionError) :
  errorMessage e <> msgGeneric.
Proof. destruct e; discriminate. Qed.

Lemma errorMessage_truthy (e : SelectionError) :
  orElse (errorMessage e) msgGeneric = errorMessage e.
Proof. destruct e; reflexivity. Qed.

Lemma orElse_truthy (a : string) : (orElse a msgGeneric =? "")%string = false.
Proof.
  unfold orElse. destruct (a =? "")%string eqn:E; [reflexivity | exact E].
Qed.

(** ** Facts about the flow *)

Lemma member_In (x : string) (xs : list string) :
  member x xs = true <-> In x xs.
Proof.
  unfold member. rewrite existsb_exists. split.
  - intros [y [Hy Heq]]. apply String.eqb_eq in Heq. now subst.
  - intros H. exists x. split; [exact H | apply String.eqb_refl].
Qed.

Lemma eligible_iff (request : FilterRequest) (record : Artist) :
  eligible request record = true <->
  In (datasetId record) (datasets request)
  /\ exists l, In l (links record) /\ In (linkType l) (linkTypes request).
Proof.
  unfold eligible. rewrite andb_true_iff, member_In, existsb_exists.
  split; intros [H1 [l [H2 H3]]]; (split; [exact H1 | exists l; split; [exact H2 |]]).
  - now apply member_In.
  - now apply member_In.
Qed.

Lemma eligibleSubset_no_datasets (allArtists : list Artist)
    (request : FilterRequest) :
  datasets request = [] -> eligibleSubset allArtists request = [].
Proof.
  intros H. unfold eligibleSubset.
  induction allArtists as [|a rest IH]; simpl; [reflexivity |].
  unfold eligible at 1. rewrite H. simpl. exact IH.
Qed.

Lemma getRandomArtist_none (draw : nat) (allArtists : list Artist)
    (request : FilterRequest) :
  eligibleSubset allArtists request = [] ->
  getRandomArtist draw allArtists request = None.
Proof. unfold getRandomArtist. intros ->. reflexivity. Qed.

Lemma getRandomArtist_in_pool (draw : nat) (allArtists : list Artist)
    (request : FilterRequest) (a : Artist) :
  getRandomArtist draw allArtists request = Some a ->
  In a (eligibleSubset allArtists request).
Proof.
  unfold getRandomArtist.
  destruct (eligibleSubset allArtists request) as [|b pool] eqn:E;
    [discriminate |].
  intros H. eapply nth_error_In. exact H.
Qed.

Lemma getRandomArtist_some (draw : nat) (allArtists : list Artist)
    (request : FilterRequest) :
  eligibleSubset allArtists request <> [] ->
  exists a, getRandomArtist draw allArtists request = Some a.
Proof.
  unfold getRandomArtist.
  destruct (eligibleSubset allArtists request) as [|b pool] eqn:E;
    [congruence |].
  intros _.
  destruct (nth_error (b :: pool) (draw mod length (b :: pool))) as [a|] eqn:N.
  - now exists a.
  - apply nth_error_None in N.
    pose proof (Nat.mod_upper_bound draw (length (b :: pool))) as U.
    simpl in *. lia.
Qed.

(** ** Facts about [fetchArtist] *)

Lemma fetchArtist_start_cells (s : State) :
  fetchArtist_start s
  = (Normal tt, {| artist := None; isLoading := true; error := None;
                   toasts := toasts s; console := console s |}).
Proof. reflexivity. Qed.

(** The error thrown when the flow answers with no record. *)
Lemma fetchArtist_try_throws (p : HomePageProps) (s : State) :
  fetchArtist_try p (Resolved None) s
  = (Throw {| message := errorMessage (classifyBySpec (requestOf p)) |}, s).
Proof. destruct p as [[|d ds] [|l ls]]; reflexivity. Qed.

Lemma fetchArtist_try_sets (p : HomePageProps) (a : Artist) (s : State) :
  fetchArtist_try p (Resolved (Some a)) s = setArtist (Some a) s.
Proof. reflexivity. Qed.

Lemma fetchArtist_try_rejected (p : HomePageProps) (e : JsValue) (s : State) :
  fetchArtist_try p (Rejected e) s = (Throw e, s).
Proof. reflexivity. Qed.

(** The [catch] block on an object: it completes normally, stores the
    message, shows the toast if the message asks for it and writes the
    object to the console. *)
Lemma fetchArtist_catch_effects (e : JsError) (s : State) :
  fetchArtist_catch (JsObject e) s
  = (Normal tt,
     {| artist := artist s; isLoading := isLoading s;
        error := Some (orElse (message e) msgGeneric);
        toasts := (toasts s
                   ++ if toastWanted (orElse (message e) msgGeneric)
                      then [errorToast] else [])%list;
        console := (console s ++ [JsObject e])%list |}).
Proof.
  unfold fetchArtist_catch, toastWanted. cbn [readMessage].
  cbv [bind ret].
  destruct (negb (includes (orElse (message e) msgGeneric) "filters")
            && negb (includes (orElse (message e) msgGeneric) "dataset")
            && negb (includes (orElse (message e) msgGeneric) "link type"));
    [reflexivity |].
  cbv [when ret setError consoleError]. simpl.
  now rewrite app_nil_r.
Qed.

(** The [catch] block on [null] or [undefined]: line 51 throws and
    nothing else of the block runs. *)
Lemma fetchArtist_catch_nullish (s : State) :
  fetchArtist_catch JsNullish s = (Throw (JsObject typeError), s).
Proof. reflexivity. Qed.

Lemma classified_wants_no_toast (e : SelectionError) :
  toastWanted (orElse (errorMessage e) msgGeneric) = false.
Proof. destruct e; reflexivity. Qed.

(** How a call completes and the state it leaves behind, for each
    settlement of the awaited promise. *)
Lemma fetchArtist_resume_effects (q : HomePageProps) (r : Awaited) (s : State) :
  fetchArtist_resume q r s
  = match r with
    | Resolved (Some a) =>
        (Normal tt,
         {| artist := Some a; isLoading := false; error := error s;
            toasts := toasts s; console := console s |})
    | Resolved None =>
        (Normal tt,
         {| artist := artist s; isLoading := false;
            error := Some (errorMessage (classifyBySpec (requestOf q)));
            toasts := toasts s;
            console :=
              (console s
               ++ [ JsObject
                      {| message :=
                           errorMessage (classifyBySpec (requestOf q)) |} ])%list |})
    | Rejected (JsObject e) =>
        (Normal tt,
         {| artist := artist s; isLoading := false;
            error := Some (orElse (message e) msgGeneric);
            toasts := (toasts s
                       ++ if toastWanted (orElse (message e) msgGeneric)
                          then [errorToast] else [])%list;
            console := (console s ++ [JsObject e])%list |})
    | Rejected JsNullish =>
        (Throw (JsObject typeError),
         {| artist := artist s; isLoading := false; error := error s;
            toasts := toasts s; console := console s |})
    end.
Proof.
  unfold fetchArtist_resume, tryCatchFinally.
  destruct r as [[a|]|[|e]].
  - rewrite fetchArtist_try_sets. reflexivity.
  - rewrite fetchArtist_try_throws, fetchArtist_catch_effects. simpl.
    rewrite classified_wants_no_toast, errorMessage_truthy.
    now rewrite app_nil_r.
  - rewrite fetchArtist_try_rejected, fetchArtist_catch_nullish. reflexivity.
  - rewrite fetchArtist_try_rejected, fetchArtist_catch_effects. reflexivity.
Qed.

Lemma fetchArtist_resume_settled (p : HomePageProps) (r : Awaited) (s : State) :
  settled p r s (exec (fetchArtist_resume p r) s).
Proof.
  unfold exec, settled. rewrite fetchArtist_resume_effects.
  destruct r as [[a|]|[|e]]; simpl; auto.
Qed.

Lemma Resolved_not_nullish (v : option Artist) : Resolved v <> Rejected JsNullish.
Proof. discriminate. Qed.

Lemma fetchArtist_settled (p : HomePageProps) (r : Awaited) (s : State) :
  r <> Rejected JsNullish ->
  exists s',
    fetchArtist p r s = (Normal tt, s')
    /\ isLoading s' = false
    /\ match r with
       | Resolved (Some a) => artist s' = Some a /\ error s' = None
       | Resolved None =>
           artist s' = None
           /\ error s' = Some (errorMessage (classifyBySpec (requestOf p)))
       | Rejected (JsObject e) =>
           artist s' = None
           /\ error s' = Some (orElse (message e) msgGeneric)
       | Rejected JsNullish => True
       end.
Proof.
  intros Hr. unfold fetchArtist, bind. rewrite fetchArtist_start_cells.
  rewrite fetchArtist_resume_effects.
  destruct r as [[a|]|[|e]]; [| | now elim Hr |];
    eexists; (split; [reflexivity | simpl; auto]).
Qed.

(** A rejection with [null] or [undefined] escapes from [fetchArtist];
    only the [finally] block has run after the start. *)
Lemma fetchArtist_nullish (p : HomePageProps) (s : State) :
  fetchArtist p (Rejected JsNullish) s
  = (Throw (JsObject typeError),
     {| artist := None; isLoading := false; error := None;
        toasts := toasts s; console := console s |}).
Proof.
  unfold fetchArtist, bind. rewrite fetchArtist_start_cells.
  now rewrite fetchArtist_resume_effects.
Qed.

Lemma classifyBySpec_both_selected (p : HomePageProps) :
  selectedDatasets p <> [] -> selectedLinkTypes p <> [] ->
  classifyBySpec (requestOf p) = NoMatchForFilters.
Proof.
  destruct p as [[|d ds] [|l ls]]; simpl; intros Hd Hl;
    solve [reflexivity | now elim Hd | now elim Hl].
Qed.

Lemma classifyBySpec_not_catch_all (request : FilterRequest) :
  classifyBySpec request <> NoDataAvailable.
Proof. destruct request as [[|d ds] [|l ls]]; discriminate. Qed.

(** ** Classification of failures *)

(** C1, as the specification states it, fails: with an empty collection,
    [datasets = {"d1"}] and [linkTypes = {"store"}] the component reports
    the message of [NoMatchForFilters], which is not the message of
    [NoDataAvailable]. *)
Lemma C1_scenario_D_is_not_NoDataAvailable :
  error (snd (selectRandomArtist 0 [] propsD1Store))
  = Some (errorMessage NoMatchForFilters)
  /\ error (snd (selectRandomArtist 0 [] propsD1Store))
     <> Some (errorMessage NoDataAvailable).
Proof. split; [reflexivity | discriminate]. Qed.

(** C1, amended: when both filters are non-empty and the collection is
    empty the selection fails with [NoMatchForFilters]; and whatever the
    collection, the filters and the record the flow answers with, the
    catch-all [NoDataAvailable] is never the reported error. *)
Theorem C1_empty_collection_is_NoMatchForFilters
    (draw : nat) (p : HomePageProps) :
  selectedDatasets p <> [] -> selectedLinkTypes p <> [] ->
  (exists s,
      selectRandomArtist draw [] p = (Normal tt, s)
      /\ artist s = None
      /\ error s = Some (errorMessage NoMatchForFilters))
  /\ (forall (q : HomePageProps) (answer : option Artist) (s : State),
         error (exec (fetchArtist q (Resolved answer)) s)
         <> Some (errorMessage NoDataAvailable)).
Proof.
  intros Hd Hl. split.
  - unfold selectRandomArtist. simpl getRandomArtist.
    destruct (fetchArtist_settled p (Resolved None) initialState
                (Resolved_not_nullish None))
      as [s [E [_ [Ha He]]]].
    exists s. rewrite (classifyBySpec_both_selected p Hd Hl) in He. auto.
  - intros q answer s. unfold exec.
    destruct (fetchArtist_settled q (Resolved answer) s
                (Resolved_not_nullish answer)) as [s' [E [_ H]]].
    rewrite E. simpl. destruct answer as [a|]; destruct H as [_ He]; rewrite He.
    + discriminate.
    + intros Heq. apply (classifyBySpec_not_catch_all (requestOf q)).
      apply errorMessage_injective. injection Heq as Heq. exact Heq.
Qed.

Lemma C1_empty_collection_is_NoMatchForFilters_witness :
  (exists s,
      selectRandomArtist 7 [] propsD1Store = (Normal tt, s)
      /\ artist s = None
      /\ error s = Some (errorMessage NoMatchForFilters))
  /\ (forall (q : HomePageProps) (answer : option Artist) (s : State),
         error (exec (fetchArtist q (Resolved answer)) s)
         <> Some (errorMessage NoDataAvailable)).
Proof.
  apply (C1_empty_collection_is_NoMatchForFilters 7 propsD1Store);
    simpl; discriminate.
Defined.

(** C2: when both filter lists are empty, the reported error is
    [NoDatasetSelected] and not [NoLinkTypeSelected]: in the selection as
    a whole, in [fetchArtist] whenever the flow answers with no record,
    and in the effect that reacts to the filter props. *)
Theorem C2_dataset_empty_reported_first
    (draw : nat) (allArtists : list Artist) (p : HomePageProps) (s : State) :
  selectedDatasets p = [] -> selectedLinkTypes p = [] ->
  error (snd (selectRandomArtist draw allArtists p))
  = Some (errorMessage NoDatasetSelected)
  /\ error (snd (selectRandomArtist draw allArtists p))
     <> Some (errorMessage NoLinkTypeSelected)
  /\ error (exec (fetchArtist p (Resolved None)) s)
     = Some (errorMessage NoDatasetSelected)
  /\ error (exec (filterEffect p) s) = Some (errorMessage NoDatasetSelected).
Proof.
  intros Hd Hl. destruct p as [sd sl]. simpl in Hd, Hl. subst sd sl.
  assert (G : getRandomArtist draw allArtists (requestOf propsNone) = None).
  { apply getRandomArtist_none. now apply eligibleSubset_no_datasets. }
  unfold selectRandomArtist. fold propsNone. rewrite G.
  repeat split; try reflexivity. discriminate.
Qed.

Lemma C2_dataset_empty_reported_first_witness :
  error (snd (selectRandomArtist 3 [artistX] propsNone))
  = Some (errorMessage NoDatasetSelected)
  /\ error (snd (selectRandomArtist 3 [artistX] propsNone))
     <> Some (errorMessage NoLinkTypeSelected)
  /\ error (exec (fetchArtist propsNone (Resolved None)) initialState)
     = Some (errorMessage NoDatasetSelected)
  /\ error (exec (filterEffect propsNone) initialState)
     = Some (errorMessage NoDatasetSelected).
Proof.
  apply (C2_dataset_empty_reported_first 3 [artistX] propsNone initialState);
    reflexivity.
Defined.

(** C3: whenever the eligible subset is empty, the selection completes
    with no record and with the message of exactly one of the four
    variants, the one the precedence rule of the specification picks
    (datasets empty, else link types empty, else no match, else the
    catch-all); the generic fallback message is not reported. *)
Theorem C3_failure_is_classified
    (draw : nat) (allArtists : list Artist) (p : HomePageProps) :
  eligibleSubset allArtists (requestOf p) = [] ->
  exists s,
    selectRandomArtist draw allArtists p = (Normal tt, s)
    /\ artist s = None
    /\ error s = Some (errorMessage (classifyBySpec (requestOf p)))
    /\ (forall e, error s = Some (errorMessage e) ->
                  e = classifyBySpec (requestOf p))
    /\ error s <> Some msgGeneric.
Proof.
  intros Hempty. unfold selectRandomArtist.
  rewrite (getRandomArtist_none draw _ _ Hempty).
  destruct (fetchArtist_settled p (Resolved None) initialState
                (Resolved_not_nullish None))
    as [s [E [_ [Ha He]]]].
  exists s. repeat split; auto.
  - intros e H. rewrite He in H. injection H as H.
    symmetry. now apply errorMessage_injective.
  - rewrite He. intros H. injection H as H.
    exact (errorMessage_not_generic _ H).
Qed.

Lemma C3_failure_is_classified_witness :
  exists s,
    selectRandomArtist 5 [artistX] propsD1Video = (Normal tt, s)
    /\ artist s = None
    /\ error s = Some (errorMessage (classifyBySpec (requestOf propsD1Video)))
    /\ (forall e, error s = Some (errorMessage e) ->
                  e = classifyBySpec (requestOf propsD1Video))
    /\ error s <> Some msgGeneric.
Proof.
  apply (C3_failure_is_classified 5 [artistX] propsD1Video). reflexivity.
Defined.

(** ** Successful selections *)

(** C4: a record the selection returns is a member of the collection, its
    [datasetId] is among the requested datasets and one of its links has
    a requested [linkType]. *)
Theorem C4_selected_record_matches_filters
    (draw : nat) (allArtists : list Artist) (p : HomePageProps) (a : Artist) :
  artist (snd (selectRandomArtist draw allArtists p)) = Some a ->
  In a allArtists
  /\ In (datasetId a) (selectedDatasets p)
  /\ exists l, In l (links a) /\ In (linkType l) (selectedLinkTypes p).
Proof.
  unfold selectRandomArtist. intros H.
  destruct (fetchArtist_settled p
              (Resolved (getRandomArtist draw allArtists (requestOf p)))
              initialState (Resolved_not_nullish _)) as [s [E [_ Hs]]].
  rewrite E in H. simpl in H.
  destruct (getRandomArtist draw allArtists (requestOf p)) as [b|] eqn:G.
  - destruct Hs as [Hb _]. rewrite Hb in H. injection H as ->.
    apply getRandomArtist_in_pool in G. unfold eligibleSubset in G.
    apply filter_In in G. destruct G as [Hin Hel].
    apply eligible_iff in Hel. simpl in Hel. tauto.
  - destruct Hs as [Hn _]. congruence.
Qed.

Lemma C4_selected_record_matches_filters_witness :
  In artistX [artistX]
  /\ In (datasetId artistX) (selectedDatasets propsD1Store)
  /\ exists l, In l (links artistX)
               /\ In (linkType l) (selectedLinkTypes propsD1Store).
Proof.
  apply (C4_selected_record_matches_filters 0 [artistX] propsD1Store artistX).
  reflexivity.
Defined.

(** ** Errors are values *)

(** C5: [fetchArtist] completes normally whenever the awaited promise
    resolves or is rejected with an object; and when the eligible subset
    is empty (empty filters, empty collection, no match) the error thrown
    inside the [try] is caught and ends up, as the message of a
    [SelectionError], in the [error] cell. *)
Theorem C5_expected_failures_are_values
    (draw : nat) (allArtists : list Artist) (p : HomePageProps) :
  eligibleSubset allArtists (requestOf p) = [] ->
  (forall (q : HomePageProps) (r : Awaited) (s : State),
      r <> Rejected JsNullish ->
      fst (fetchArtist q r s) = Normal tt)
  /\ fst (selectRandomArtist draw allArtists p) = Normal tt
  /\ exists e : SelectionError,
       fst (fetchArtist_try p
              (Resolved (getRandomArtist draw allArtists (requestOf p)))
              (exec fetchArtist_start initialState))
       = Throw {| message := errorMessage e |}
       /\ error (snd (selectRandomArtist draw allArtists p))
          = Some (errorMessage e).
Proof.
  intros Hempty.
  assert (All : forall q r s, r <> Rejected JsNullish ->
                              fst (fetchArtist q r s) = Normal tt).
  { intros q r s Hr. destruct (fetchArtist_settled q r s Hr) as [s' [E _]].
    now rewrite E. }
  split; [exact All |]. split; [apply All; discriminate |].
  exists (classifyBySpec (requestOf p)).
  unfold selectRandomArtist. rewrite (getRandomArtist_none draw _ _ Hempty).
  split.
  - now rewrite fetchArtist_try_throws.
  - destruct (fetchArtist_settled p (Resolved None) initialState
                (Resolved_not_nullish None))
      as [s [E [_ [_ He]]]].
    now rewrite E.
Qed.

Lemma C5_expected_failures_are_values_witness :
  (forall (q : HomePageProps) (r : Awaited) (s : State),
      r <> Rejected JsNullish ->
      fst (fetchArtist q r s) = Normal tt)
  /\ fst (selectRandomArtist 1 [] propsD1Store) = Normal tt
  /\ exists e : SelectionError,
       fst (fetchArtist_try propsD1Store
              (Resolved (getRandomArtist 1 [] (requestOf propsD1Store)))
              (exec fetchArtist_start initialState))
       = Throw {| message := errorMessage e |}
       /\ error (snd (selectRandomArtist 1 [] propsD1Store))
          = Some (errorMessage e).
Proof.
  apply (C5_expected_failures_are_values 1 [] propsD1Store). reflexivity.
Defined.

(** ** The hotkey *)

(** C9: a keydown whose target is an INPUT element, a TEXTAREA element or
    a content-editable element makes [handleKeyDown] return at once: the
    default is not prevented, no new artist is requested, and the
    component takes no transition. *)
Theorem C9_no_trigger_from_text_input
    (canDiscoverNow isDiscoveringNow : bool) (activeElement : option HTMLElement)
    (event : KeyboardEvent) (el : HTMLElement) :
  target event = Some el ->
  tagName el = "INPUT" \/ tagName el = "TEXTAREA" \/ isContentEditable el = true ->
  handleKeyDown canDiscoverNow isDiscoveringNow activeElement event
  = {| defaultPrevented := false; newArtistRequested := false |}
  /\ forall m isPending, step m (KeyDown isPending activeElement event) = m.
Proof.
  intros Ht Hel.
  assert (Htext : isTextInput el = true).
  { unfold isTextInput. destruct Hel as [H | [H | H]]; rewrite H.
    - reflexivity.
    - reflexivity.
    - apply orb_true_r. }
  assert (Hreturn : forall c d,
             handleKeyDown c d activeElement event
             = {| defaultPrevented := false; newArtistRequested := false |}).
  { intros c d. unfold handleKeyDown. now rewrite Ht, Htext. }
  split; [apply Hreturn |].
  intros m isPending. simpl. now rewrite Hreturn.
Qed.

Lemma C9_no_trigger_from_text_input_witness :
  handleKeyDown true false None
    {| target := Some {| tagName := "TEXTAREA"; isContentEditable := false |};
       code := "Space" |}
  = {| defaultPrevented := false; newArtistRequested := false |}
  /\ forall m isPending,
       step m (KeyDown isPending None
                 {| target := Some {| tagName := "TEXTAREA";
                                      isContentEditable := false |};
                    code := "Space" |})
       = m.
Proof.
  apply (C9_no_trigger_from_text_input true false None
           {| target := Some {| tagName := "TEXTAREA"; isContentEditable := false |};
              code := "Space" |}
           {| tagName := "TEXTAREA"; isContentEditable := false |}).
  - reflexivity.
  - right. left. reflexivity.
Defined.

(** The same key on the page body does request a new artist. *)
Example space_on_body_requests :
  handleKeyDown true false None
    {| target := Some {| tagName := "BODY"; isContentEditable := false |};
       code := "Space" |}
  = {| defaultPrevented := true; newArtistRequested := true |}.
Proof. reflexivity. Qed.

(** ** The two cells *)

(** C10, as stated, fails: a call is in flight when the datasets are
    cleared, the effect stores the dataset message, and the call then
    settles with a record; both cells are set. *)
Lemma C10_stale_settlement_sets_both_cells :
  artist (cells (run (initialMachine propsD1Store) staleTrace)) = Some artistX
  /\ error (cells (run (initialMachine propsD1Store) staleTrace))
     = Some msgNoDatasetSelected
  /\ ~ exclusive (cells (run (initialMachine propsD1Store) staleTrace)).
Proof.
  split; [reflexivity |]. split; [reflexivity |].
  intros [H | H]; discriminate H.
Qed.

Lemma exclusive_start (s : State) : exclusive (exec fetchArtist_start s).
Proof. left. reflexivity. Qed.

Lemma exclusive_filterEffect (p : HomePageProps) (s : State) :
  exclusive (exec (filterEffect p) s).
Proof.
  left. unfold exec, filterEffect.
  destruct ((0 <? length (selectedDatasets p))
            && (0 <? length (selectedLinkTypes p))); [reflexivity |].
  destruct (length (selectedDatasets p) =? 0);
    [| destruct (length (selectedLinkTypes p) =? 0)]; reflexivity.
Qed.

Lemma exclusive_settled (q : HomePageProps) (r : Awaited) (s s' : State) :
  artist s = None -> error s = None -> settled q r s s' -> exclusive s'.
Proof.
  unfold settled, exclusive. intros Ha He [_ H].
  destruct r as [[a|]|[|e]]; destruct H as [H1 H2].
  - right. congruence.
  - left. congruence.
  - left. congruence.
  - left. congruence.
Qed.

Lemma quiescent_handleNewArtist (m : Machine) :
  inflight m = [] -> quiescent (handleNewArtist m).
Proof.
  intros H. unfold quiescent, handleNewArtist. simpl. rewrite H. simpl. auto.
Qed.

(** One transition that respects the discipline keeps [quiescent]. *)
Lemma quiescent_step (m : Machine) (ev : Event) (rest : list Event) :
  quiescent m -> overlapFree m (ev :: rest) = true -> quiescent (step m ev).
Proof.
  intros Q O. simpl in O. apply andb_true_iff in O. destruct O as [O _].
  destruct ev as [q|pend|pend act event|i r].
  - destruct (inflight m) as [|x xs] eqn:I; [| discriminate O].
    unfold quiescent. simpl. unfold filterEffect. rewrite I.
    destruct ((0 <? length (selectedDatasets q))
              && (0 <? length (selectedLinkTypes q))); simpl; [auto |].
    destruct (length (selectedDatasets q) =? 0);
      [| destruct (length (selectedLinkTypes q) =? 0)];
      simpl; left; reflexivity.
  - destruct (inflight m) as [|x xs] eqn:I; [| discriminate O].
    simpl.
    destruct (isDiscovering pend (cells m) || negb (canDiscover (props m)));
      [exact Q | now apply quiescent_handleNewArtist].
  - destruct (inflight m) as [|x xs] eqn:I; [| discriminate O].
    simpl.
    destruct (newArtistRequested
                (handleKeyDown (canDiscover (props m))
                   (isDiscovering pend (cells m)) act event));
      [now apply quiescent_handleNewArtist | exact Q].
  - cbn [step]. unfold quiescent in Q.
    destruct (inflight m) as [|x [|y ys]] eqn:I; [| | contradiction].
    + destruct i; simpl; unfold quiescent; now rewrite I.
    + destruct i as [|i].
      * simpl. unfold quiescent. simpl. destruct Q as [Ha He].
        exact (exclusive_settled x r (cells m) _ Ha He
                 (fetchArtist_resume_settled x r (cells m))).
      * destruct i; simpl; unfold quiescent; now rewrite I.
Qed.

Lemma quiescent_exclusive (m : Machine) : quiescent m -> exclusive (cells m).
Proof.
  unfold quiescent, exclusive.
  destruct (inflight m) as [|x [|y ys]]; [auto | intros [H _]; auto | contradiction].
Qed.

Lemma quiescent_run (trace : list Event) :
  forall m, quiescent m -> overlapFree m trace = true ->
            quiescent (run m trace).
Proof.
  induction trace as [|ev rest IH]; intros m Q O; [exact Q |].
  simpl. apply IH.
  - exact (quiescent_step m ev rest Q O).
  - simpl in O. apply andb_true_iff in O. exact (proj2 O).
Qed.

Lemma exclusive_fetchArtist (q : HomePageProps) (r : Awaited) (s : State) :
  exclusive (exec (fetchArtist q r) s).
Proof.
  unfold exec, exclusive, fetchArtist, bind.
  rewrite fetchArtist_start_cells, fetchArtist_resume_effects.
  destruct r as [[a|]|[|e]]; simpl; auto.
Qed.

(** C10, amended: along every trace in which nothing but its own
    settlement happens while a call of [fetchArtist] is in flight, the
    [artist] cell and the [error] cell are never both set; and each
    transition on its own (the start of a call, a call run from start to
    settlement, the effect on the filter props) leaves at most one of
    them set, whatever the state before. *)
Theorem C10_exclusive_without_overlap (p : HomePageProps) (trace : list Event) :
  overlapFree (initialMachine p) trace = true ->
  exclusive (cells (run (initialMachine p) trace))
  /\ (forall s, exclusive (exec fetchArtist_start s))
  /\ (forall q r s, exclusive (exec (fetchArtist q r) s))
  /\ (forall q s, exclusive (exec (filterEffect q) s)).
Proof.
  intros O. split; [| split; [| split]].
  - apply quiescent_exclusive. apply quiescent_run; [| exact O].
    unfold quiescent. simpl. left. reflexivity.
  - exact exclusive_start.
  - exact exclusive_fetchArtist.
  - exact exclusive_filterEffect.
Qed.

Lemma C10_exclusive_without_overlap_witness :
  exclusive
    (cells (run (initialMachine propsD1Store)
              [ FiltersChanged propsD1Store;
                Settle 0 (Resolved (Some artistX));
                Click false;
                Settle 0 (Resolved None);
                FiltersChanged propsNoneStore ]))
  /\ (forall s, exclusive (exec fetchArtist_start s))
  /\ (forall q r s, exclusive (exec (fetchArtist q r) s))
  /\ (forall q s, exclusive (exec (filterEffect q) s)).
Proof.
  apply (C10_exclusive_without_overlap propsD1Store
           [ FiltersChanged propsD1Store;
             Settle 0 (Resolved (Some artistX));
             Click false;
             Settle 0 (Resolved None);
             FiltersChanged propsNoneStore ]).
  reflexivity.
Defined.

(** ** Uniformity *)

(** Within a block of [k] consecutive draws, reducing modulo [k] walks
    through the positions in order. *)
Lemma favourable_window (F : nat -> bool) (k block len : nat) :
  forall start,
    start + len <= k ->
    length (filter (fun draw => F (draw mod k)) (seq (block * k + start) len))
    = length (filter F (seq start len)).
Proof.
  induction len as [|len IH]; intros start Hle; [reflexivity |].
  simpl.
  assert (Hmod : (block * k + start) mod k = start).
  { symmetry. apply (Nat.mod_unique (block * k + start) k block); lia. }
  rewrite Hmod.
  replace (S (block * k + start)) with (block * k + S start) by lia.
  destruct (F start); simpl; rewrite IH by lia; reflexivity.
Qed.

Lemma favourable_blocks (F : nat -> bool) (k blocks : nat) :
  favourable (blocks * k) (fun draw => F (draw mod k))
  = blocks * length (filter F (seq 0 k)).
Proof.
  unfold favourable. induction blocks as [|blocks IH]; [reflexivity |].
  replace (S blocks * k) with (blocks * k + k) by lia.
  rewrite seq_app, filter_app, length_app, IH. simpl.
  pose proof (favourable_window F k blocks k 0) as W.
  rewrite Nat.add_0_r in W. rewrite W by lia. lia.
Qed.

Lemma none_equal_below (j len : nat) :
  forall start, j < start -> filter (fun i => i =? j) (seq start len) = [].
Proof.
  induction len as [|len IH]; intros start Hlt; [reflexivity |].
  simpl. replace (start =? j) with false by (symmetry; apply Nat.eqb_neq; lia).
  apply IH. lia.
Qed.

(** Exactly one number of a window equals a given number of the window. *)
Lemma count_eq_in_window (j len : nat) :
  forall start,
    start <= j < start + len ->
    length (filter (fun i => i =? j) (seq start len)) = 1.
Proof.
  induction len as [|len IH]; intros start Hj; [lia |].
  simpl. destruct (start =? j) eqn:E.
  - apply Nat.eqb_eq in E. subst j.
    rewrite none_equal_below by lia. reflexivity.
  - apply Nat.eqb_neq in E. apply IH. lia.
Qed.

(** Counting the positions that hold [a] counts its occurrences. *)
Lemma count_positions (a : Artist) (pool : list Artist) :
  length (filter (holds pool a) (seq 0 (length pool)))
  = count_occ Artist_eq_dec pool a.
Proof.
  induction pool as [|b pool IH]; [reflexivity |].
  cbn [length seq filter]. rewrite <- seq_shift, filter_map_swap.
  assert (Htail : filter (fun i => holds (b :: pool) a (S i))
                         (seq 0 (length pool))
                  = filter (holds pool a) (seq 0 (length pool)))
    by (apply filter_ext; reflexivity).
  rewrite Htail. unfold holds at 1. cbn [nth_error count_occ].
  destruct (Artist_eq_dec a b) as [Heq | Hne];
    destruct (Artist_eq_dec b a) as [Heq' | Hne']; try congruence;
    cbn [length]; rewrite length_map, IH; reflexivity.
Qed.

Lemma returns_holds (allArtists : list Artist) (request : FilterRequest)
    (a : Artist) (draw : nat) :
  returns allArtists request a draw
  = holds (eligibleSubset allArtists request) a
          (draw mod length (eligibleSubset allArtists request)).
Proof.
  unfold returns, getRandomArtist, holds.
  destruct (eligibleSubset allArtists request) as [|b pool]; [| reflexivity].
  simpl. now destruct draw.
Qed.

Lemma probability_of_share (blocks k share : nat) (event : nat -> bool) :
  0 < blocks -> 0 < k ->
  favourable (blocks * k) event = blocks * share ->
  (probability (blocks * k) event == Z.of_nat share # Pos.of_nat k)%Q.
Proof.
  intros Hb Hk Hfav. unfold probability, Qeq. simpl. rewrite Hfav.
  rewrite <- !positive_nat_Z, !Nat2Pos.id by lia.
  rewrite !Nat2Z.inj_mul. lia.
Qed.

(** C8: let [k] be the size of the eligible subset and let the draw be
    uniform over [blocks * k] values.  Each position [j] of the subset is
    picked with probability [1/k] and every draw reduced to [j] returns
    the record at [j]; a record is returned with probability [c/k] where
    [c] counts its entries in the subset, which is [1/k] when the entries
    are distinct. *)
Theorem C8_uniform_over_eligible
    (allArtists : list Artist) (request : FilterRequest)
    (a : Artist) (j blocks : nat) :
  nth_error (eligibleSubset allArtists request) j = Some a ->
  0 < blocks ->
  (probability (blocks * length (eligibleSubset allArtists request))
     (fun draw => draw mod length (eligibleSubset allArtists request) =? j)
   == 1 # Pos.of_nat (length (eligibleSubset allArtists request)))%Q
  /\ (forall draw,
         draw mod length (eligibleSubset allArtists request) = j ->
         getRandomArtist draw allArtists request = Some a)
  /\ (probability (blocks * length (eligibleSubset allArtists request))
        (returns allArtists request a)
      == Z.of_nat (count_occ Artist_eq_dec (eligibleSubset allArtists request) a)
         # Pos.of_nat (length (eligibleSubset allArtists request)))%Q
  /\ (NoDup (eligibleSubset allArtists request) ->
      (probability (blocks * length (eligibleSubset allArtists request))
         (returns allArtists request a)
       == 1 # Pos.of_nat (length (eligibleSubset allArtists request)))%Q).
Proof.
  intros Hj Hb.
  assert (Hlen : j < length (eligibleSubset allArtists request))
    by (apply nth_error_Some; congruence).
  assert (Hshare :
            favourable (blocks * length (eligibleSubset allArtists request))
              (returns allArtists request a)
            = blocks * count_occ Artist_eq_dec
                         (eligibleSubset allArtists request) a).
  { unfold favourable.
    rewrite (filter_ext (returns allArtists request a)
               (fun draw =>
                  holds (eligibleSubset allArtists request) a
                    (draw mod length (eligibleSubset allArtists request))))
      by (intros draw; apply returns_holds).
    fold (favourable (blocks * length (eligibleSubset allArtists request))
            (fun draw =>
               holds (eligibleSubset allArtists request) a
                 (draw mod length (eligibleSubset allArtists request)))).
    now rewrite favourable_blocks, count_positions. }
  split; [| split; [| split]].
  - change (1 # Pos.of_nat (length (eligibleSubset allArtists request)))%Q
      with (Z.of_nat 1
            # Pos.of_nat (length (eligibleSubset allArtists request)))%Q.
    apply probability_of_share; [exact Hb | lia |].
    rewrite (favourable_blocks (fun i => i =? j)).
    rewrite count_eq_in_window by lia. reflexivity.
  - intros draw Hdraw. unfold getRandomArtist.
    destruct (eligibleSubset allArtists request) as [|b pool] eqn:E;
      [simpl in Hlen; lia |].
    now rewrite Hdraw.
  - apply probability_of_share; [exact Hb | lia | exact Hshare].
  - intros Hnd.
    change (1 # Pos.of_nat (length (eligibleSubset allArtists request)))%Q
      with (Z.of_nat 1
            # Pos.of_nat (length (eligibleSubset allArtists request)))%Q.
    apply probability_of_share; [exact Hb | lia |].
    rewrite Hshare. f_equal.
    apply (proj1 (NoDup_count_occ' Artist_eq_dec _) Hnd).
    eapply nth_error_In. exact Hj.
Qed.

Lemma C8_uniform_over_eligible_witness :
  (probability
     (2 * length (eligibleSubset [artistX; artistY] (requestOf propsD1Store)))
     (fun draw =>
        draw mod length (eligibleSubset [artistX; artistY] (requestOf propsD1Store))
        =? 1)
   == 1 # Pos.of_nat
            (length (eligibleSubset [artistX; artistY] (requestOf propsD1Store))))%Q
  /\ (forall draw,
         draw mod length (eligibleSubset [artistX; artistY] (requestOf propsD1Store))
         = 1 ->
         getRandomArtist draw [artistX; artistY] (requestOf propsD1Store)
         = Some artistY)
  /\ (probability
        (2 * length (eligibleSubset [artistX; artistY] (requestOf propsD1Store)))
        (returns [artistX; artistY] (requestOf propsD1Store) artistY)
      == Z.of_nat
           (count_occ Artist_eq_dec
              (eligibleSubset [artistX; artistY] (requestOf propsD1Store))
              artistY)
         # Pos.of_nat
             (length (eligibleSubset [artistX; artistY] (requestOf propsD1Store))))%Q
  /\ (NoDup (eligibleSubset [artistX; artistY] (requestOf propsD1Store)) ->
      (probability
         (2 * length (eligibleSubset [artistX; artistY] (requestOf propsD1Store)))
         (returns [artistX; artistY] (requestOf propsD1Store) artistY)
       == 1 # Pos.of_nat
                (length (eligibleSubset [artistX; artistY]
                           (requestOf propsD1Store))))%Q).
Proof.
  apply (C8_uniform_over_eligible [artistX; artistY] (requestOf propsD1Store)
           artistY 1 2).
  - reflexivity.
  - lia.
Defined.

(** ** Toasts and the console *)



Lemma filterEffect_toasts (p : HomePageProps) (s : State) :
  toasts (snd (filterEffect p s)) = toasts s.
Proof.
  unfold filterEffect.
  destruct ((0 <? length (selectedDatasets p))
            && (0 <? length (selectedLinkTypes p))); [reflexivity |].
  destruct (length (selectedDatasets p) =? 0);
    [| destruct (length (selectedLinkTypes p) =? 0)]; reflexivity.
Qed.

Lemma step_toasts (m : Machine) (ev : Event) :
  noRejection [ev] = true ->
  toasts (cells (step m ev)) = toasts (cells m).
Proof.
  intros Hev. destruct ev as [q|pend|pend act event|i r].
  - simpl. pose proof (filterEffect_toasts q (cells m)) as T.
    destruct (filterEffect q (cells m)) as [[[|]|e] s']; exact T.
  - simpl.
    destruct (isDiscovering pend (cells m) || negb (canDiscover (props m)));
      reflexivity.
  - simpl.
    destruct (newArtistRequested
                (handleKeyDown (canDiscover (props m))
                   (isDiscovering pend (cells m)) act event));
      reflexivity.
  - cbn [step]. destruct (nth_error (inflight m) i) as [q|]; [| reflexivity].
    cbn [cells]. unfold exec. rewrite fetchArtist_resume_effects.
    destruct r as [[a|]|e]; [reflexivity | reflexivity | discriminate Hev].
Qed.

(** As long as no awaited promise is rejected, the component never shows
    a toast, whatever the filters, the clicks, the key presses and the
    order in which calls settle. *)
Theorem no_toast_without_rejection (p : HomePageProps) (trace : list Event) :
  noRejection trace = true ->
  toasts (cells (run (initialMachine p) trace)) = [].
Proof.
  assert (G : forall m, noRejection trace = true ->
                        toasts (cells (run m trace)) = toasts (cells m)).
  { induction trace as [|ev rest IH]; intros m H; [reflexivity |].
    simpl in H. apply andb_true_iff in H. destruct H as [Hev Hrest].
    simpl. rewrite (IH (step m ev) Hrest). apply step_toasts.
    simpl. now rewrite Hev. }
  intros H. now rewrite (G (initialMachine p) H).
Qed.

Lemma no_toast_without_rejection_witness :
  toasts (cells (run (initialMachine propsD1Video)
                   [ FiltersChanged propsD1Video;
                     Settle 0 (Resolved None);
                     Click false;
                     FiltersChanged propsNone;
                     Settle 0 (Resolved (Some artistX)) ]))
  = [].
Proof.
  apply (no_toast_without_rejection propsD1Video
           [ FiltersChanged propsD1Video;
             Settle 0 (Resolved None);
             Click false;
             FiltersChanged propsNone;
             Settle 0 (Resolved (Some artistX)) ]).
  reflexivity.
Defined.

(** A rejection whose message is empty does show the toast. *)
Example rejection_toasts :
  toasts (cells (run (initialMachine propsD1Store)
                   [ FiltersChanged propsD1Store;
                     Settle 0 (Rejected {| message := "" |}) ]))
  = [errorToast].
Proof. reflexivity. Qed.

(** ** The hotkey and the button *)

(** The default action of a key press is prevented exactly when the key
    is the space bar, its target is not a text input and no button has
    the focus, whether or not a discovery can start; a new artist is
    requested exactly when, on top of that, both filters are selected and
    no discovery is under way. *)
Theorem hotkey_outcome
    (canDiscoverNow isDiscoveringNow : bool)
    (activeElement : option HTMLElement) (event : KeyboardEvent) :
  (defaultPrevented
     (handleKeyDown canDiscoverNow isDiscoveringNow activeElement event) = true
   <-> targetIsText event = false
       /\ code event = "Space"
       /\ buttonHasFocus activeElement = false)
  /\ (newArtistRequested
        (handleKeyDown canDiscoverNow isDiscoveringNow activeElement event) = true
      <-> targetIsText event = false
          /\ code event = "Space"
          /\ buttonHasFocus activeElement = false
          /\ canDiscoverNow = true
          /\ isDiscoveringNow = false).
Proof.
  unfold handleKeyDown, targetIsText, buttonHasFocus.
  destruct (match target event with
            | Some el => isTextInput el
            | None => false
            end) eqn:T.
  { simpl. split; split; intros H; try discriminate H;
      destruct H as [H _]; discriminate H. }
  destruct (code event =? "Space")%string eqn:K.
  2:{ apply eqb_neq in K. simpl.
      split; split; intros H; try discriminate H;
        destruct H as [_ [H _]]; contradiction. }
  apply String.eqb_eq in K.
  destruct (match activeElement with
            | Some el => (tagName el =? "BUTTON")%string
            | None => false
            end) eqn:B; simpl.
  { split; split; intros H; try discriminate H.
    - destruct H as [_ [_ H]]. discriminate H.
    - destruct H as [_ [_ [H _]]]. discriminate H. }
  split; split; intros H; auto.
  - apply andb_true_iff in H. destruct H as [H1 H2].
    apply negb_true_iff in H2. auto.
  - destruct H as [_ [_ [_ [H1 H2]]]]. now rewrite H1, H2.
Qed.

(** Wherever the hotkey applies (space bar, target not a text input, no
    button focused) a key press does to the component exactly what a
    click on the button does: the call starts under the same condition
    as the one that enables the button, and otherwise nothing happens. *)
Theorem hotkey_acts_as_click
    (m : Machine) (isPending : bool)
    (activeElement : option HTMLElement) (event : KeyboardEvent) :
  targetIsText event = false ->
  code event = "Space" ->
  buttonHasFocus activeElement = false ->
  step m (KeyDown isPending activeElement event) = step m (Click isPending)
  /\ (newArtistRequested
        (handleKeyDown (canDiscover (props m))
           (isDiscovering isPending (cells m)) activeElement event)
      = negb (buttonDisabled isPending m)).
Proof.
  unfold targetIsText, buttonHasFocus, buttonDisabled. intros T K B.
  cbn [step]. unfold handleKeyDown. rewrite T, K, B. simpl.
  destruct (canDiscover (props m)), (isDiscovering isPending (cells m));
    simpl; split; reflexivity.
Qed.

Lemma hotkey_acts_as_click_witness :
  step (run (mounted propsD1Video) [Settle 0 (Resolved None)])
    (KeyDown false None
       {| target := Some {| tagName := "BODY"; isContentEditable := false |};
          code := "Space" |})
  = step (run (mounted propsD1Video) [Settle 0 (Resolved None)]) (Click false)
  /\ (newArtistRequested
        (handleKeyDown
           (canDiscover
              (props (run (mounted propsD1Video) [Settle 0 (Resolved None)])))
           (isDiscovering false
              (cells (run (mounted propsD1Video) [Settle 0 (Resolved None)])))
           None
           {| target := Some {| tagName := "BODY"; isContentEditable := false |};
              code := "Space" |})
      = negb (buttonDisabled false
                (run (mounted propsD1Video) [Settle 0 (Resolved None)]))).
Proof.
  apply (hotkey_acts_as_click
           (run (mounted propsD1Video) [Settle 0 (Resolved None)]) false None
           {| target := Some {| tagName := "BODY"; isContentEditable := false |};
              code := "Space" |});
    reflexivity.
Defined.

(** ** The effect when a filter list is empty *)

(** When a filter list is empty the effect starts no call; it clears the
    artist, turns the spinner off and shows the message for the first
    empty list: the dataset message when no dataset is selected, the
    link-type message only when a dataset is selected and no link type
    is. *)
Theorem effect_reports_first_empty_filter (m : Machine) (p : HomePageProps) :
  canDiscover p = false ->
  inflight (step m (FiltersChanged p)) = inflight m
  /\ artist (cells (step m (FiltersChanged p))) = None
  /\ isLoading (cells (step m (FiltersChanged p))) = false
  /\ error (cells (step m (FiltersChanged p)))
     = Some (match selectedDatasets p with
             | [] => msgNoDatasetSelected
             | _ :: _ => msgNoLinkTypeSelected
             end)
  /\ phase false (cells (step m (FiltersChanged p)))
     = Error (match selectedDatasets p with
              | [] => msgNoDatasetSelected
              | _ :: _ => msgNoLinkTypeSelected
              end).
Proof.
  unfold canDiscover. intros H. cbn [step]. unfold filterEffect. rewrite H.
  destruct p as [[|d ds] [|l ls]]; simpl in H; try discriminate H;
    repeat split.
Qed.

Lemma effect_reports_first_empty_filter_witness :
  inflight (step (mounted propsD1Store) (FiltersChanged propsNoneStore))
  = inflight (mounted propsD1Store)
  /\ artist (cells (step (mounted propsD1Store) (FiltersChanged propsNoneStore)))
     = None
  /\ isLoading (cells (step (mounted propsD1Store) (FiltersChanged propsNoneStore)))
     = false
  /\ error (cells (step (mounted propsD1Store) (FiltersChanged propsNoneStore)))
     = Some (match selectedDatasets propsNoneStore with
             | [] => msgNoDatasetSelected
             | _ :: _ => msgNoLinkTypeSelected
             end)
  /\ phase false
       (cells (step (mounted propsD1Store) (FiltersChanged propsNoneStore)))
     = Error (match selectedDatasets propsNoneStore with
              | [] => msgNoDatasetSelected
              | _ :: _ => msgNoLinkTypeSelected
              end).
Proof.
  apply (effect_reports_first_empty_filter (mounted propsD1Store) propsNoneStore).
  reflexivity.
Defined.

(** ** Calls in flight *)

Lemma Forall_without {A : Type} (P : A -> Prop) (l : list A) :
  forall i, Forall P l -> Forall P (firstn i l ++ skipn (S i) l).
Proof.
  induction l as [|x l IH]; intros i H.
  - destruct i; exact H.
  - inversion H as [|y l' Hx Hl]; subst. destruct i as [|i]; simpl.
    + exact Hl.
    + constructor; [exact Hx | apply IH; exact Hl].
Qed.

Lemma inflight_step (m : Machine) (ev : Event) :
  Forall (fun q => canDiscover q = true) (inflight m) ->
  Forall (fun q => canDiscover q = true) (inflight (step m ev)).
Proof.
  intros F. destruct ev as [q|pend|pend act event|i r].
  - cbn [step]. unfold filterEffect. fold (canDiscover q).
    destruct (canDiscover q) eqn:C.
    + simpl. apply Forall_app. split; [exact F | now constructor].
    + destruct (length (selectedDatasets q) =? 0);
        [| destruct (length (selectedLinkTypes q) =? 0)]; exact F.
  - cbn [step].
    destruct (isDiscovering pend (cells m)); [exact F |].
    destruct (canDiscover (props m)) eqn:C; [| exact F].
    simpl. apply Forall_app. split; [exact F | now constructor].
  - cbn [step]. unfold handleKeyDown.
    destruct (match target event with
              | Some el => isTextInput el
              | None => false
              end); [exact F |].
    destruct ((code event =? "Space")%string
              && negb match act with
                      | Some el => (tagName el =? "BUTTON")%string
                      | None => false
                      end); [| exact F].
    cbn [newArtistRequested].
    destruct (canDiscover (props m)) eqn:C; [| exact F].
    destruct (isDiscovering pend (cells m)); [exact F |].
    simpl. apply Forall_app. split; [exact F | now constructor].
  - cbn [step]. destruct (nth_error (inflight m) i) as [q|]; [| exact F].
    cbn [inflight]. now apply Forall_without.
Qed.

Lemma inflight_run (trace : list Event) :
  forall m,
    Forall (fun q => canDiscover q = true) (inflight m) ->
    Forall (fun q => canDiscover q = true) (inflight (run m trace)).
Proof.
  induction trace as [|ev rest IH]; intros m F; [exact F |].
  simpl. apply IH. now apply inflight_step.
Qed.

(** Every call of [fetchArtist] that the component ever has in flight was
    started with both filter lists non-empty (the effect, the button and
    the hotkey all test it).  So when such a call gets no record, the
    error it reports is always the one for filters that match nothing;
    the dataset and link-type messages never come from [fetchArtist]. *)
Theorem inflight_calls_have_both_filters
    (p : HomePageProps) (trace : list Event) (i : nat) (q : HomePageProps) :
  nth_error (inflight (run (initialMachine p) trace)) i = Some q ->
  selectedDatasets q <> []
  /\ selectedLinkTypes q <> []
  /\ error (cells (step (run (initialMachine p) trace) (Settle i (Resolved None))))
     = Some msgNoMatchForFilters.
Proof.
  intros N.
  assert (C : canDiscover q = true).
  { pose proof (inflight_run trace (initialMachine p) (Forall_nil _)) as F.
    rewrite Forall_forall in F. apply F. eapply nth_error_In. exact N. }
  assert (Hd : selectedDatasets q <> []) by (now destruct q as [[|d ds] [|l ls]]).
  assert (Hl : selectedLinkTypes q <> []) by (now destruct q as [[|d ds] [|l ls]]).
  split; [exact Hd |]. split; [exact Hl |].
  cbn [step]. rewrite N. cbn [cells].
  destruct (fetchArtist_resume_settled q (Resolved None)
              (cells (run (initialMachine p) trace))) as [_ [_ He]].
  rewrite He. now rewrite (classifyBySpec_both_selected q Hd Hl).
Qed.

Lemma inflight_calls_have_both_filters_witness :
  selectedDatasets propsD1Video <> []
  /\ selectedLinkTypes propsD1Video <> []
  /\ error (cells (step (run (initialMachine propsD1Store)
                           [ FiltersChanged propsD1Store;
                             FiltersChanged propsNone;
                             FiltersChanged propsD1Video ])
                        (Settle 1 (Resolved None))))
     = Some msgNoMatchForFilters.
Proof.
  apply (inflight_calls_have_both_filters propsD1Store
           [ FiltersChanged propsD1Store;
             FiltersChanged propsNone;
             FiltersChanged propsD1Video ] 1 propsD1Video).
  reflexivity.
Defined.

(** ** The spinner and the calls *)

Lemma request_needs_idle (canDiscoverNow isDiscoveringNow : bool)
    (activeElement : option HTMLElement) (event : KeyboardEvent) :
  newArtistRequested
    (handleKeyDown canDiscoverNow isDiscoveringNow activeElement event) = true ->
  canDiscoverNow = true /\ isDiscoveringNow = false.
Proof.
  unfold handleKeyDown.
  destruct (match target event with
            | Some el => isTextInput el
            | None => false
            end); [discriminate |].
  destruct ((code event =? "Space")%string
            && negb match activeElement with
                    | Some el => (tagName el =? "BUTTON")%string
                    | None => false
                    end); [| discriminate].
  simpl. intros H. apply andb_true_iff in H. destruct H as [H1 H2].
  apply negb_true_iff in H2. auto.
Qed.

Lemma settledOrLoading_start (m : Machine) :
  inflight m = [] -> settledOrLoading (handleNewArtist m).
Proof.
  intros I. unfold settledOrLoading, handleNewArtist. simpl. rewrite I.
  simpl. auto.
Qed.

Lemma settledOrLoading_blocks (m : Machine) (isPending : bool) :
  settledOrLoading m -> inflight m <> [] ->
  isDiscovering isPending (cells m) = true.
Proof.
  unfold settledOrLoading, isDiscovering.
  destruct (inflight m) as [|x [|y ys]]; [congruence | | contradiction].
  intros [L _] _. rewrite L. apply orb_true_r.
Qed.

Lemma settledOrLoading_step (m : Machine) (ev : Event) (rest : list Event) :
  settledOrLoading m -> filtersChangeAtRest m (ev :: rest) = true ->
  settledOrLoading (step m ev).
Proof.
  intros Q O. simpl in O. apply andb_true_iff in O. destruct O as [O _].
  destruct ev as [q|pend|pend act event|i r].
  - destruct (inflight m) as [|x xs] eqn:I; [| discriminate O].
    unfold settledOrLoading. cbn [step]. unfold filterEffect. rewrite I.
    destruct ((0 <? length (selectedDatasets q))
              && (0 <? length (selectedLinkTypes q))); simpl; [auto |].
    destruct (length (selectedDatasets q) =? 0);
      [| destruct (length (selectedLinkTypes q) =? 0)];
      simpl; (split; [reflexivity | left; reflexivity]).
  - cbn [step]. destruct (inflight m) as [|x xs] eqn:I.
    + destruct (isDiscovering pend (cells m) || negb (canDiscover (props m)));
        [exact Q | now apply settledOrLoading_start].
    + rewrite (settledOrLoading_blocks m pend Q) by congruence. exact Q.
  - cbn [step].
    destruct (newArtistRequested
                (handleKeyDown (canDiscover (props m))
                   (isDiscovering pend (cells m)) act event)) eqn:R;
      [| exact Q].
    apply request_needs_idle in R. destruct R as [_ D].
    destruct (inflight m) as [|x xs] eqn:I;
      [now apply settledOrLoading_start |].
    rewrite (settledOrLoading_blocks m pend Q) in D by congruence.
    discriminate D.
  - cbn [step]. unfold settledOrLoading in Q.
    destruct (inflight m) as [|x [|y ys]] eqn:I; [| | contradiction].
    + destruct i; simpl; unfold settledOrLoading; now rewrite I.
    + destruct i as [|i].
      * simpl. unfold settledOrLoading. simpl.
        pose proof (fetchArtist_resume_settled x r (cells m)) as Hs.
        destruct Q as [_ [Ha He]].
        split; [exact (proj1 Hs) |].
        exact (exclusive_settled x r (cells m) _ Ha He Hs).
      * destruct i; simpl; unfold settledOrLoading; now rewrite I.
Qed.

Lemma settledOrLoading_run (trace : list Event) :
  forall m, settledOrLoading m -> filtersChangeAtRest m trace = true ->
            settledOrLoading (run m trace).
Proof.
  induction trace as [|ev rest IH]; intros m Q O; [exact Q |].
  simpl. apply IH.
  - exact (settledOrLoading_step m ev rest Q O).
  - simpl in O. apply andb_true_iff in O. exact (proj2 O).
Qed.

Lemma settledOrLoading_mounted (p : HomePageProps) :
  settledOrLoading (mounted p).
Proof.
  unfold mounted, settledOrLoading. cbn [step]. unfold filterEffect.
  destruct ((0 <? length (selectedDatasets p))
            && (0 <? length (selectedLinkTypes p))); simpl; [auto |].
  destruct (length (selectedDatasets p) =? 0);
    [| destruct (length (selectedLinkTypes p) =? 0)];
    simpl; (split; [reflexivity | left; reflexivity]).
Qed.

(** The button and the hotkey never start a call while one is in flight:
    after the mount, as long as the filter props change only while no
    call is in flight, at most one call is in flight however the user
    clicks and presses keys; [isLoading] is true exactly while a call is
    in flight, and [artist] and [error] are never both set. *)
Theorem user_triggers_never_overlap (p : HomePageProps) (trace : list Event) :
  filtersChangeAtRest (mounted p) trace = true ->
  length (inflight (run (mounted p) trace)) <= 1
  /\ (isLoading (cells (run (mounted p) trace)) = true
      <-> inflight (run (mounted p) trace) <> [])
  /\ exclusive (cells (run (mounted p) trace)).
Proof.
  intros O.
  pose proof (settledOrLoading_run trace (mounted p)
                (settledOrLoading_mounted p) O) as Q.
  unfold settledOrLoading in Q.
  destruct (inflight (run (mounted p) trace)) as [|x [|y ys]];
    [| | contradiction].
  - destruct Q as [L X]. split; [simpl; lia |]. split; [| exact X].
    rewrite L. split; [discriminate | congruence].
  - destruct Q as [L [Ha He]]. split; [simpl; lia |].
    split; [| left; exact Ha].
    rewrite L. split; [discriminate | reflexivity].
Qed.

Lemma user_triggers_never_overlap_witness :
  length (inflight (run (mounted propsD1Store)
                      [ Click false; Click true;
                        Settle 0 (Resolved (Some artistX));
                        Click false; Click false;
                        Settle 0 (Resolved None);
                        FiltersChanged propsD1Video ])) <= 1
  /\ (isLoading (cells (run (mounted propsD1Store)
                          [ Click false; Click true;
                            Settle 0 (Resolved (Some artistX));
                            Click false; Click false;
                            Settle 0 (Resolved None);
                            FiltersChanged propsD1Video ])) = true
      <-> inflight (run (mounted propsD1Store)
                      [ Click false; Click true;
                        Settle 0 (Resolved (Some artistX));
                        Click false; Click false;
                        Settle 0 (Resolved None);
                        FiltersChanged propsD1Video ]) <> [])
  /\ exclusive (cells (run (mounted propsD1Store)
                         [ Click false; Click true;
                           Settle 0 (Resolved (Some artistX));
                           Click false; Click false;
                           Settle 0 (Resolved None);
                           FiltersChanged propsD1Video ])).
Proof.
  apply (user_triggers_never_overlap propsD1Store
           [ Click false; Click true;
             Settle 0 (Resolved (Some artistX));
             Click false; Click false;
             Settle 0 (Resolved None);
             FiltersChanged propsD1Video ]).
  reflexivity.
Defined.

(** ** The empty branch of the render *)

Lemma errorMessage_not_empty (e : SelectionError) : errorMessage e <> "".
Proof. destruct e; discriminate. Qed.

Lemma orElse_not_empty (a : string) : orElse a msgGeneric <> "".
Proof. apply eqb_neq. apply orElse_truthy. Qed.

Lemma somethingToShow_step (m : Machine) (ev : Event) :
  noNullishRejection [ev] = true ->
  somethingToShow (cells m) -> somethingToShow (cells (step m ev)).
Proof.
  intros Hev S. destruct ev as [q|pend|pend act event|i r].
  - cbn [step]. unfold filterEffect.
    destruct ((0 <? length (selectedDatasets q))
              && (0 <? length (selectedLinkTypes q))) eqn:C.
    + simpl. intros L. discriminate L.
    + destruct (length (selectedDatasets q) =? 0) eqn:D.
      * simpl. intros _. right. eexists. split; [reflexivity | discriminate].
      * destruct (length (selectedLinkTypes q) =? 0) eqn:T.
        -- simpl. intros _. right. eexists. split; [reflexivity | discriminate].
        -- apply Nat.eqb_neq in D. apply Nat.eqb_neq in T.
           apply andb_false_iff in C.
           destruct C as [C | C]; apply Nat.ltb_ge in C; lia.
  - cbn [step].
    destruct (isDiscovering pend (cells m) || negb (canDiscover (props m)));
      [exact S | intros L; discriminate L].
  - cbn [step].
    destruct (newArtistRequested
                (handleKeyDown (canDiscover (props m))
                   (isDiscovering pend (cells m)) act event));
      [intros L; discriminate L | exact S].
  - cbn [step]. destruct (nth_error (inflight m) i) as [q|]; [| exact S].
    cbn [cells]. unfold exec. rewrite fetchArtist_resume_effects.
    intros _. destruct r as [[a|]|[|e]]; simpl.
    + left. discriminate.
    + right. eexists. split; [reflexivity | apply errorMessage_not_empty].
    + discriminate Hev.
    + right. eexists. split; [reflexivity | apply orElse_not_empty].
Qed.

Lemma somethingToShow_run (trace : list Event) :
  forall m,
    noNullishRejection trace = true ->
    somethingToShow (cells m) -> somethingToShow (cells (run m trace)).
Proof.
  induction trace as [|ev rest IH]; intros m H S; [exact S |].
  simpl in H. apply andb_true_iff in H. destruct H as [Hev Hrest].
  simpl. apply IH; [exact Hrest |]. apply somethingToShow_step; [| exact S].
  simpl. now rewrite Hev.
Qed.

(** As long as no awaited promise is rejected with [null] or [undefined],
    and in whatever order calls overlap and settle, the component never
    reaches the last branch of the render (nothing to show): it shows the
    skeleton, an artist or a non-empty error message. *)
Theorem never_blank (p : HomePageProps) (trace : list Event) (isPending : bool) :
  noNullishRejection trace = true ->
  phase isPending (cells (run (initialMachine p) trace)) <> Idle.
Proof.
  intros H.
  assert (S0 : somethingToShow (cells (initialMachine p)))
    by (intros L; discriminate L).
  pose proof (somethingToShow_run trace (initialMachine p) H S0) as S.
  unfold somethingToShow in S. unfold phase, isDiscovering.
  destruct isPending; simpl; [discriminate |].
  destruct (isLoading (cells (run (initialMachine p) trace)));
    [discriminate |].
  destruct (S eq_refl) as [A | [reason [E R]]].
  - destruct (artist (cells (run (initialMachine p) trace)));
      [discriminate | congruence].
  - destruct (artist (cells (run (initialMachine p) trace)));
      [discriminate |].
    rewrite E. apply eqb_neq in R. rewrite R. discriminate.
Qed.

Lemma never_blank_witness :
  phase false
    (cells (run (initialMachine propsD1Store)
              [ FiltersChanged propsD1Store;
                FiltersChanged propsD1Video;
                Settle 1 (Rejected {| message := "" |});
                FiltersChanged propsNone;
                Settle 0 (Resolved None) ]))
  <> Idle.
Proof.
  apply (never_blank propsD1Store
           [ FiltersChanged propsD1Store;
             FiltersChanged propsD1Video;
             Settle 1 (Rejected {| message := "" |});
             FiltersChanged propsNone;
             Settle 0 (Resolved None) ] false).
  reflexivity.
Defined.

(** A rejection with [null] does end in the last branch of the render. *)
Example nullish_rejection_renders_nothing :
  phase false
    (cells (run (initialMachine propsD1Store)
              [ FiltersChanged propsD1Store; Settle 0 (Rejected JsNullish) ]))
  = Idle.
Proof. reflexivity. Qed.

(** ** Overlapping calls *)

(** Whatever is shown and whatever else is in flight, a call that settles
    with a record makes that record the one shown; of two calls that
    settle with records the one that settles last is shown, in whatever
    order they were started. *)
Theorem last_settlement_is_shown
    (m : Machine) (i j : nat) (a b : Artist) :
  i < length (inflight m) ->
  j < length (inflight (step m (Settle i (Resolved (Some a))))) ->
  phase false (cells (step m (Settle i (Resolved (Some a))))) = Success a
  /\ phase false
       (cells (run m [ Settle i (Resolved (Some a));
                       Settle j (Resolved (Some b)) ]))
     = Success b.
Proof.
  intros Hi Hj.
  assert (One : forall m' k c,
             k < length (inflight m') ->
             phase false (cells (step m' (Settle k (Resolved (Some c)))))
             = Success c).
  { intros m' k c Hk. cbn [step].
    destruct (nth_error (inflight m') k) as [q|] eqn:N.
    - cbn [cells]. unfold exec. rewrite fetchArtist_resume_effects.
      reflexivity.
    - apply nth_error_None in N. lia. }
  split; [now apply One |].
  unfold run. cbn [fold_left]. now apply One.
Qed.

Lemma last_settlement_is_shown_witness :
  phase false
    (cells (step (run (initialMachine propsD1Store)
                    [ FiltersChanged propsD1Store; FiltersChanged propsD1Video ])
                 (Settle 1 (Resolved (Some artistY)))))
  = Success artistY
  /\ phase false
       (cells (run (run (initialMachine propsD1Store)
                      [ FiltersChanged propsD1Store; FiltersChanged propsD1Video ])
                   [ Settle 1 (Resolved (Some artistY));
                     Settle 0 (Resolved (Some artistX)) ]))
     = Success artistX.
Proof.
  apply (last_settlement_is_shown
           (run (initialMachine propsD1Store)
              [ FiltersChanged propsD1Store; FiltersChanged propsD1Video ])
           1 0 artistY artistX); simpl; lia.
Defined.

(** ** The view cycle *)





